(** * sitemap2pdf: a shallow embedding of src/index.ts

    The program is an async Deno script.  Its effects (console output,
    HTTP fetches, browser calls, file-system writes, [Deno.exit]) are
    recorded as a trace of events; its exceptions are the error branch of
    a small trace/exception monad [M].  The recursion of
    [fetchSitemapUrls] over nested sitemap indexes is unbounded in the
    source (a cyclic sitemap graph makes it loop); it is embedded with a
    fuel argument, and running out of fuel ([None]) stands for
    non-termination, never for a result.

    Strings are Stdlib [string]s of ASCII characters: URLs are ASCII, and
    every character the sanitizer keeps is ASCII. *)

From Stdlib Require Import String Ascii List Bool Arith Lia ZArith.
Import ListNotations.
Open Scope string_scope.
Open Scope list_scope.
Set Warnings "-register-all".

(** ** JavaScript values produced by the XML parser (deno.land/x/xml) *)

Inductive jsval : Type :=
| JUndef
| JNull
| JBool (b : bool)
| JNum (z : Z)
| JStr (s : string)
| JArr (xs : list jsval)
| JObj (fields : list (string * jsval)).

(** JavaScript truthiness ([!v] is [negb (truthy v)]). *)
Definition truthy (v : jsval) : bool :=
  match v with
  | JUndef | JNull => false
  | JBool b => b
  | JNum z => negb (Z.eqb z 0)
  | JStr s => negb (String.eqb s "")
  | JArr _ | JObj _ => true
  end.

(** [typeof v === 'string'] *)
Definition is_string (v : jsval) : bool :=
  match v with JStr _ => true | _ => false end.

Definition str_of (v : jsval) : string :=
  match v with JStr s => s | _ => "" end.

Fixpoint assoc (k : string) (fs : list (string * jsval)) : jsval :=
  match fs with
  | [] => JUndef
  | (k', v) :: fs' => if String.eqb k k' then v else assoc k fs'
  end.

(** Property read [v.k] on a value that is not [null]/[undefined]:
    strings, numbers, booleans and arrays have none of the keys the
    program reads. *)
Definition field (v : jsval) (k : string) : jsval :=
  match v with JObj fs => assoc k fs | _ => JUndef end.

(** [Array.isArray(x) ? x : [x]] *)
Definition as_array (v : jsval) : list jsval :=
  match v with JArr xs => xs | _ => [v] end.

(** ** Errors, console messages and events *)

Inductive error : Type :=
| ENet (msg : string)            (* fetch() rejected *)
| EHttp (statusText : string)    (* Failed to fetch sitemap: ... *)
| EBody (msg : string)           (* response.text() rejected *)
| EParse (msg : string)          (* parseXml threw *)
| ETypeError                     (* property read on null/undefined *)
| EInvalidFormat                 (* Invalid sitemap format. No <urlset> or <sitemapindex> found. *)
| ELaunch (msg : string)         (* puppeteer.launch rejected *)
| ENewPage (msg : string)        (* browser.newPage rejected *)
| ENav (msg : string)            (* page.goto navigation error *)
| ETimeout                       (* page.goto 60000 ms timeout *)
| EContent (msg : string).       (* page.content rejected *)

Inductive stream : Type := Out | Err | Warn.

Inductive msg : Type :=
| MFetchingSitemap (url : string)
| MSitemapError (e : error)
| MPageError (pageUrl : string) (e : error)
| MPleaseProvide
| MUsage
| MSitemapUrl (url : string)
| MNoUrls
| MFound (n : nat)
| MProcessing (pageUrl : option string) (indexPlusOne : string) (total : nat)
| MSkipping (pageUrl : string)
| MWriting (path : string)
| MFinished.

Inductive event : Type :=
| Log (s : stream) (m : msg)
| HttpGet (url : string)
| BrowserLaunched
| PageOpened
| Goto (url : string)
| BrowserClosed
| Mkdir (path : string)
| WriteFile (path : string) (contents : string)
| Exit (code : Z).

(** ** The trace / exception monad *)

(** A computation extends the trace and ends normally ([inr]) or with a
    thrown error ([inl]); [None] is non-termination (fuel exhausted). *)
Definition M (A : Type) : Type :=
  list event -> option (list event * (error + A)).

Definition ret {A} (a : A) : M A := fun t => Some (t, inr a).
Definition throw {A} (e : error) : M A := fun t => Some (t, inl e).
Definition diverge {A} : M A := fun _ => None.

Definition bind {A B} (m : M A) (k : A -> M B) : M B :=
  fun t =>
    match m t with
    | None => None
    | Some (t', inl e) => Some (t', inl e)
    | Some (t', inr a) => k a t'
    end.

Definition emit (ev : event) : M unit := fun t => Some (t ++ [ev], inr tt).

(** [try { m } catch (e) { h e }] *)
Definition catch {A} (m : M A) (h : error -> M A) : M A :=
  fun t =>
    match m t with
    | Some (t', inl e) => h e t'
    | r => r
    end.

(** [try { m } finally { f }] where [f] itself does not throw. *)
Definition finally {A} (m : M A) (f : M unit) : M A :=
  fun t =>
    match m t with
    | None => None
    | Some (t', r) =>
        match f t' with
        | None => None
        | Some (t'', inl e) => Some (t'', inl e)
        | Some (t'', inr _) => Some (t'', r)
        end
    end.

Notation "x <- m ;; k" := (bind m (fun x => k))
  (at level 61, m at next level, right associativity).
Notation "m ;;; k" := (bind m (fun _ => k))
  (at level 61, right associativity).

(** Property read [v.k]: a TypeError on [null] and [undefined]. *)
Definition get (v : jsval) (k : string) : M jsval :=
  match v with
  | JUndef | JNull => throw ETypeError
  | _ => ret (field v k)
  end.

Definition of_sum {A} (mk : string -> error) (r : string + A) : M A :=
  match r with inl m => throw (mk m) | inr a => ret a end.

(** ** sanitizeUrlToFileName *)

Module Sanitize.

Definition slash : ascii := "/"%char.
Definition dot : ascii := "."%char.
Definition underscore : ascii := "_"%char.
Definition dash : ascii := "-"%char.

(** [url.replace(/^https?:\/\//, '')] *)
Definition strip_scheme (s : string) : string :=
  if String.prefix "https://" s then substring 8 (String.length s - 8) s
  else if String.prefix "http://" s then substring 7 (String.length s - 7) s
  else s.

(** [.replace(/\//g, '_')] *)
Fixpoint replace_slashes (s : string) : string :=
  match s with
  | EmptyString => EmptyString
  | String c s' =>
      String (if Ascii.eqb c slash then underscore else c) (replace_slashes s')
  end.

(** [.replace('.', '_')]: a string pattern, so only the first occurrence. *)
Fixpoint replace_first_dot (s : string) : string :=
  match s with
  | EmptyString => EmptyString
  | String c s' =>
      if Ascii.eqb c dot then String underscore s'
      else String c (replace_first_dot s')
  end.

(** Membership in the class [a-zA-Z0-9_.-]. *)
Definition allowed (c : ascii) : bool :=
  let n := nat_of_ascii c in
  (Nat.leb 97 n && Nat.leb n 122) || (Nat.leb 65 n && Nat.leb n 90)
  || (Nat.leb 48 n && Nat.leb n 57)
  || Ascii.eqb c underscore || Ascii.eqb c dot || Ascii.eqb c dash.

(** [.replace(/[^a-zA-Z0-9_.-]/g, '')] *)
Fixpoint keep_allowed (s : string) : string :=
  match s with
  | EmptyString => EmptyString
  | String c s' =>
      if allowed c then String c (keep_allowed s') else keep_allowed s'
  end.

Fixpoint last_char (s : string) : option ascii :=
  match s with
  | EmptyString => None
  | String c EmptyString => Some c
  | String _ s' => last_char s'
  end.

(** [s.endsWith('.') || s.endsWith('_')] *)
Definition ends_dot_or_underscore (s : string) : bool :=
  match last_char s with
  | Some c => Ascii.eqb c dot || Ascii.eqb c underscore
  | None => false
  end.

Definition sanitizeUrlToFileName (url : string) : string :=
  let fileName := keep_allowed (replace_first_dot (replace_slashes (strip_scheme url))) in
  let fileName :=
    if Nat.ltb 100 (String.length fileName) then substring 0 100 fileName
    else fileName in
  let fileName :=
    if Nat.ltb 1 (String.length fileName) && ends_dot_or_underscore fileName
    then substring 0 (String.length fileName - 1) fileName
    else fileName in
  if String.eqb fileName "" then "default_page_name"
  else fileName ++ ".md".

End Sanitize.

(** ** The environment: network, XML parser, browser, extractor *)

(** Outcome of [await fetch(url)]: a rejection, or a response with
    [ok], [statusText] and the outcome of [await response.text()]. *)
Inductive response : Type :=
| FetchReject (msg : string)
| Response (ok : bool) (statusText : string) (body : string + string).

(** Outcome of [page.goto(url, { waitUntil: 'networkidle2', timeout: 60000 })]. *)
Inductive goto_result : Type :=
| GotoOk
| GotoNavError (msg : string)
| GotoTimeout.

Record env : Type := {
  net_fetch : string -> response;
  parse_xml : string -> string + jsval;       (* parseXml: throws, or the tree *)
  br_launch : option string;                  (* Some m: puppeteer.launch rejects *)
  br_newPage : option string;                 (* Some m: browser.newPage rejects *)
  br_goto : string -> goto_result;
  br_content : string -> string + string;     (* page.content() *)
  extract_md : string -> string               (* toMarkdown(extract(html, ...).root) *)
}.

Section Program.

Context (E : env).

(** ** fetchSitemapUrls *)

(** The [urls.map] callback and the body of the [for (const sm of sitemaps)]
    loop both read [x.loc] this way:
    - [x.loc && typeof x.loc === 'string'] gives [x.loc];
    - else [x.loc && typeof x.loc['#text'] === 'string'] gives [x.loc['#text']];
    - else nothing. *)
Definition loc_of (x : jsval) : M (option string) :=
  loc <- get x "loc" ;;
  if truthy loc && is_string loc then ret (Some (str_of loc))
  else if truthy loc then
    t <- get loc "#text" ;;
    if is_string t then ret (Some (str_of t)) else ret None
  else ret None.

Fixpoint map_M {A B} (f : A -> M B) (xs : list A) : M (list B) :=
  match xs with
  | [] => ret []
  | x :: xs' => y <- f x ;; ys <- map_M f xs' ;; ret (y :: ys)
  end.

(** [.filter((u) => u !== null)] *)
Fixpoint drop_nulls (xs : list (option string)) : list string :=
  match xs with
  | [] => []
  | Some u :: xs' => u :: drop_nulls xs'
  | None :: xs' => drop_nulls xs'
  end.

(** [!urlset || !urlset.url] *)
Definition noUrlset (urlset : jsval) : M bool :=
  if negb (truthy urlset) then ret true
  else u <- get urlset "url" ;; ret (negb (truthy u)).

(** [sitemapindex && sitemapindex.sitemap], as a condition. *)
Definition hasSitemaps (sitemapindex : jsval) : M bool :=
  if truthy sitemapindex
  then sm <- get sitemapindex "sitemap" ;; ret (truthy sm)
  else ret false.

(** The [for (const sm of sitemaps)] loop of the sitemap-index branch,
    given the recursive call [fetchSitemapUrls] on the nested sitemaps:
    [urls = urls.concat(nestedUrls)] for each entry with a location. *)
Fixpoint sitemapLoop (fetchNested : string -> M (list string))
    (sitemaps : list jsval) (urls : list string) : M (list string) :=
  match sitemaps with
  | [] => ret urls
  | sm :: rest =>
      l <- loc_of sm ;;
      match l with
      | Some child =>
          nestedUrls <- fetchNested child ;;
          sitemapLoop fetchNested rest (urls ++ nestedUrls)
      | None => sitemapLoop fetchNested rest urls
      end
  end.

Fixpoint fetchSitemapUrls (fuel : nat) (sitemapUrl : string) : M (list string) :=
  match fuel with
  | O => diverge
  | S fuel' =>
    catch
      (emit (Log Out (MFetchingSitemap sitemapUrl)) ;;;
       emit (HttpGet sitemapUrl) ;;;
       match net_fetch E sitemapUrl with
       | FetchReject m => throw (ENet m)
       | Response ok statusText body =>
         if negb ok then throw (EHttp statusText) else
         xmlString <- of_sum EBody body ;;
         doc <- of_sum EParse (parse_xml E xmlString) ;;
         urlset <- get doc "urlset" ;;
         notUrlset <- noUrlset urlset ;;
         if notUrlset then
           sitemapindex <- get doc "sitemapindex" ;;
           isIndex <- hasSitemaps sitemapindex ;;
           if isIndex then
             sm <- get sitemapindex "sitemap" ;;
             sitemapLoop (fetchSitemapUrls fuel') (as_array sm) []
           else throw EInvalidFormat
         else
           u <- get urlset "url" ;;
           locs <- map_M loc_of (as_array u) ;;
           ret (drop_nulls locs)
       end)
      (fun e => emit (Log Err (MSitemapError e)) ;;; ret [])
  end.

(** ** fetchPageHtml *)

Definition goto (pageUrl : string) : M unit :=
  emit (Goto pageUrl) ;;;
  match br_goto E pageUrl with
  | GotoOk => ret tt
  | GotoNavError m => throw (ENav m)
  | GotoTimeout => throw ETimeout
  end.

Definition fetchPageHtml (pageUrl : string) : M (option string) :=
  (match br_launch E with
   | Some m => throw (ELaunch m)
   | None => emit BrowserLaunched
   end) ;;;
  (match br_newPage E with
   | Some m => throw (ENewPage m)
   | None => emit PageOpened
   end) ;;;
  finally
    (catch
       (goto pageUrl ;;;
        html <- of_sum EContent (br_content E pageUrl) ;;
        ret (Some html))
       (fun e => emit (Log Err (MPageError pageUrl e)) ;;; ret None))
    (emit BrowserClosed).

(** ** main *)

(** [const [index, pageUrl] of urls] destructures each URL string with the
    string iterator: [index] is its first character and [pageUrl] its
    second ([undefined] when the string is shorter). *)
Definition destructure (u : string) : option string * option string :=
  match u with
  | EmptyString => (None, None)
  | String c EmptyString => (Some (String c EmptyString), None)
  | String c (String d _) => (Some (String c EmptyString), Some (String d EmptyString))
  end.

(** [`${index + 1}`]: string concatenation when [index] is a string,
    [NaN] when it is [undefined]. *)
Definition index_plus_one (index : option string) : string :=
  match index with Some s => s ++ "1" | None => "NaN" end.

(** [join('docs', baseFileName)] *)
Definition join_docs (baseFileName : string) : string := "docs/" ++ baseFileName.

(** The loop body after [pageUrl] is bound to a string: the page pipeline. *)
Definition processPage (pageUrl : string) : M unit :=
  let baseFileName := Sanitize.sanitizeUrlToFileName pageUrl in
  html <- fetchPageHtml pageUrl ;;
  match html with
  | Some h =>
      if String.eqb h "" then emit (Log Warn (MSkipping pageUrl))
      else
        let markdown := extract_md E h in
        let path := join_docs baseFileName in
        emit (Log Out (MWriting path)) ;;;
        emit (WriteFile path markdown)
  | None => emit (Log Warn (MSkipping pageUrl))
  end.

Definition loopBody (total : nat) (u : string) : M unit :=
  let '(index, pageUrl) := destructure u in
  emit (Log Out (MProcessing pageUrl (index_plus_one index) total)) ;;;
  match pageUrl with
  | None => throw ETypeError   (* sanitizeUrlToFileName(undefined): undefined.replace *)
  | Some p => processPage p
  end.

Fixpoint for_each (total : nat) (urls : list string) : M unit :=
  match urls with
  | [] => ret tt
  | u :: rest => loopBody total u ;;; for_each total rest
  end.

(** The [for] loop followed by the final summary. *)
Definition runPages (urls : list string) : M unit :=
  for_each (List.length urls) urls ;;;
  emit (Log Out MFinished).

Definition main (fuel : nat) (args : list string) : M unit :=
  match args with
  | [] =>
      emit (Log Err MPleaseProvide) ;;;
      emit (Log Out MUsage) ;;;
      emit (Exit 1)
  | sitemapUrl :: _ =>
      emit (Log Out (MSitemapUrl sitemapUrl)) ;;;
      urls <- fetchSitemapUrls fuel sitemapUrl ;;
      if Nat.eqb (List.length urls) 0 then emit (Log Out MNoUrls)
      else
        emit (Log Out (MFound (List.length urls))) ;;;
        emit (Mkdir "docs") ;;;
        runPages urls
  end.

End Program.

(** ** Observations on traces and reference notions used in statements *)

Definition gotos (t : list event) : list string :=
  flat_map (fun ev => match ev with Goto u => [u] | _ => [] end) t.

Definition written_paths (t : list event) : list string :=
  flat_map (fun ev => match ev with WriteFile p _ => [p] | _ => [] end) t.

Definition has_exit (t : list event) : bool :=
  existsb (fun ev => match ev with Exit _ => true | _ => false end) t.

Definition has_http (t : list event) : bool :=
  existsb (fun ev => match ev with HttpGet _ => true | _ => false end) t.

(** An entry carries its location as a (non-empty) bare string under
    [loc], or as an object holding the text under ['#text']. *)
Inductive loc_form (x : jsval) : string -> Prop :=
| loc_bare s : field x "loc" = JStr s -> s <> "" -> loc_form x s
| loc_text gs s : field x "loc" = JObj gs -> field (JObj gs) "#text" = JStr s ->
    loc_form x s.

(** Run the computations one after the other and concatenate their lists. *)
Fixpoint seq_concat (cs : list (M (list string))) : M (list string) :=
  match cs with
  | [] => ret []
  | c :: cs' => a <- c ;; b <- seq_concat cs' ;; ret (a ++ b)
  end.

(** The error [page.goto] rejects with, if any. *)
Definition nav_failure (g : goto_result) : option error :=
  match g with
  | GotoOk => None
  | GotoNavError m => Some (ENav m)
  | GotoTimeout => Some ETimeout
  end.

(** The trace of a sitemap node that fails with [e]. *)
Definition failed_node (url : string) (e : error) : list event :=
  [Log Out (MFetchingSitemap url); HttpGet url; Log Err (MSitemapError e)].

(** Evaluate one resolver node, rewriting with the hypotheses. *)
Ltac run_node :=
  cbn [fetchSitemapUrls];
  unfold catch, bind, emit, ret, throw, of_sum, get;
  repeat (match goal with H : _ = _ |- _ => rewrite H end; cbn);
  rewrite <- ?app_assoc; try reflexivity.

(** The trace of one loop iteration whose page render fails with [e]. *)
Definition skip_events (u p : string) (e : error) (total : nat) : list event :=
  [Log Out (MProcessing (Some p) (index_plus_one (fst (destructure u))) total);
   BrowserLaunched; PageOpened; Goto p; Log Err (MPageError p e);
   BrowserClosed; Log Warn (MSkipping p)].

(** Every character of [s] is in [a-zA-Z0-9_.-]. *)
Definition all_allowed (s : string) : bool :=
  forallb Sanitize.allowed (list_ascii_of_string s).

(** Not [null] or [undefined]: a property read on it does not throw. *)
Definition defined (v : jsval) : bool :=
  match v with JUndef | JNull => false | _ => true end.

(** What the code reads from one [url]/[sitemap] entry that is not
    [null]/[undefined]: its location, or nothing when [loc] is falsy, or
    truthy but neither a string nor an object with a string ['#text']. *)
Inductive entry_loc (x : jsval) : option string -> Prop :=
| entry_some s : loc_form x s -> entry_loc x (Some s)
| entry_no_loc : defined x = true -> truthy (field x "loc") = false ->
    entry_loc x None
| entry_bad_loc : defined x = true -> truthy (field x "loc") = true ->
    is_string (field x "loc") = false ->
    is_string (field (field x "loc") "#text") = false -> entry_loc x None.

(** Prove [loc_form]/[entry_loc] facts on concrete entries. *)
Ltac loc_tac :=
  first [ apply loc_bare; [reflexivity | discriminate]
        | eapply loc_text; reflexivity ].
Ltac entries_tac :=
  repeat (apply Forall2_cons; [first [loc_tac | apply entry_some; loc_tac] |]);
  apply Forall2_nil.

(** ** Concrete environments *)

Module Scenario.

Definition index_url := "https://ex.com/sitemap.xml".
Definition child_a := "https://ex.com/a.xml".
Definition child_b := "https://ex.com/b.xml".

Definition index_doc : jsval :=
  JObj [("sitemapindex",
         JObj [("sitemap",
                JArr [JObj [("loc", JStr child_a)];
                      JObj [("loc", JObj [("#text", JStr child_b)])]])])].

Definition urlset_doc : jsval :=
  JObj [("urlset",
         JObj [("@xmlns", JStr "http://www.sitemaps.org/schemas/sitemap/0.9");
               ("url",
                JArr [JObj [("loc", JStr "https://ex.com/p1")];
                      JObj [("loc", JStr "https://ex.com/p2")];
                      JObj [("loc", JObj [("#text", JStr "https://ex.com/p3")])]])])].

(** A sitemap index with two children: [a.xml] lists three pages and
    [b.xml] answers 404.  Every page renders. *)
Definition env_index : env := {|
  net_fetch := fun u =>
    if String.eqb u index_url then Response true "OK" (inr "index")
    else if String.eqb u child_a then Response true "OK" (inr "a")
    else Response false "Not Found" (inr "");
  parse_xml := fun x =>
    if String.eqb x "index" then inr index_doc
    else if String.eqb x "a" then inr urlset_doc
    else inl "unexpected end of input";
  br_launch := None;
  br_newPage := None;
  br_goto := fun u =>
    if String.prefix "https://" u then GotoOk
    else GotoNavError "Cannot navigate to invalid URL";
  br_content := fun _ => inr "<html><body><article>text</article></body></html>";
  extract_md := fun _ => "text"
|}.

(** A urlset whose second [<url/>] element is empty: the XML parser
    represents an empty element as [null]. *)
Definition env_null_entry : env := {|
  net_fetch := fun _ => Response true "OK" (inr "u");
  parse_xml := fun _ =>
    inr (JObj [("urlset",
                JObj [("url", JArr [JObj [("loc", JStr "https://ex.com/p1")]; JNull])])]);
  br_launch := None;
  br_newPage := None;
  br_goto := fun _ => GotoOk;
  br_content := fun _ => inr "<html></html>";
  extract_md := fun _ => ""
|}.

(** As [env_index], but [browser.newPage()] rejects. *)
Definition env_no_page : env := {|
  net_fetch := net_fetch env_index;
  parse_xml := parse_xml env_index;
  br_launch := None;
  br_newPage := Some "Target closed";
  br_goto := br_goto env_index;
  br_content := br_content env_index;
  extract_md := extract_md env_index
|}.

(** A [<urlset>] root with its namespace attribute and no [<url>] entry. *)
Definition env_empty_urlset : env := {|
  net_fetch := fun _ => Response true "OK" (inr "empty");
  parse_xml := fun _ =>
    inr (JObj [("urlset",
                JObj [("@xmlns", JStr "http://www.sitemaps.org/schemas/sitemap/0.9")])]);
  br_launch := None;
  br_newPage := None;
  br_goto := fun _ => GotoOk;
  br_content := fun _ => inr "<html></html>";
  extract_md := fun _ => ""
|}.

(** Every navigation succeeds and every page has content. *)
Definition env_render_all : env := {|
  net_fetch := net_fetch env_index;
  parse_xml := parse_xml env_index;
  br_launch := None;
  br_newPage := None;
  br_goto := fun _ => GotoOk;
  br_content := br_content env_index;
  extract_md := extract_md env_index
|}.

(** [puppeteer.launch] rejects. *)
Definition env_no_browser : env := {|
  net_fetch := net_fetch env_index;
  parse_xml := parse_xml env_index;
  br_launch := Some "Failed to launch the browser process";
  br_newPage := None;
  br_goto := br_goto env_index;
  br_content := br_content env_index;
  extract_md := extract_md env_index
|}.

(** A sitemap index whose second entry is the index itself. *)
Definition env_self_index : env := {|
  net_fetch := fun u =>
    if String.eqb u index_url then Response true "OK" (inr "index")
    else Response false "Not Found" (inr "");
  parse_xml := fun _ =>
    inr (JObj [("sitemapindex",
                JObj [("sitemap",
                       JArr [JObj [("loc", JStr child_a)];
                             JObj [("loc", JStr index_url)]])])]);
  br_launch := None;
  br_newPage := None;
  br_goto := fun _ => GotoOk;
  br_content := fun _ => inr "<html></html>";
  extract_md := fun _ => ""
|}.

(** A sitemap index whose second [<sitemap/>] element is empty. *)
Definition env_index_null : env := {|
  net_fetch := net_fetch env_index;
  parse_xml := fun x =>
    if String.eqb x "index" then
      inr (JObj [("sitemapindex",
                  JObj [("sitemap", JArr [JObj [("loc", JStr child_a)]; JNull])])])
    else parse_xml env_index x;
  br_launch := None;
  br_newPage := None;
  br_goto := br_goto env_index;
  br_content := br_content env_index;
  extract_md := extract_md env_index
|}.

End Scenario.

(** ** Properties of the resolver *)

Section Resolver.

Context (E : env).

Lemma loc_of_form (x : jsval) (s : string) (t : list event) :
  loc_form x s -> loc_of x t = Some (t, inr (Some s)).
Proof.
  intros Hf. destruct Hf as [s Hl Hne | gs s Hl Ht];
    destruct x; simpl in Hl; try discriminate; unfold loc_of, get, bind, ret; simpl.
  - rewrite Hl. simpl. destruct (String.eqb_spec s ""); [contradiction | reflexivity].
  - rewrite Hl. simpl in Ht |- *. rewrite Ht. reflexivity.
Qed.

Lemma sitemapLoop_concat (f : string -> M (list string)) (es : list jsval)
    (locs : list string) :
  Forall2 loc_form es locs ->
  forall acc t,
    sitemapLoop f es acc t = (l <- seq_concat (map f locs) ;; ret (acc ++ l)) t.
Proof.
  induction 1 as [| e s es locs Hf _ IH]; intros acc t.
  - simpl. unfold bind, ret. rewrite app_nil_r. reflexivity.
  - simpl. unfold bind at 1. rewrite (loc_of_form _ _ _ Hf).
    unfold bind. destruct (f s t) as [[t1 [err | n]] |]; try reflexivity.
    rewrite IH. unfold bind, ret.
    destruct (seq_concat (map f locs) t1) as [[t2 [err | b]] |]; try reflexivity.
    rewrite app_assoc. reflexivity.
Qed.

(** The [try]/[catch] around the whole body: no call ends in an error. *)
Lemma fetchSitemapUrls_no_throw (fuel : nat) (url : string) (t t' : list event)
    (r : error + list string) :
  fetchSitemapUrls E fuel url t = Some (t', r) -> exists l, r = inr l.
Proof.
  destruct fuel as [| fuel]; simpl; [discriminate |].
  unfold catch at 1.
  match goal with |- context [match ?b t with _ => _ end] => destruct (b t) as [[t1 [e | l]] |] end.
  - unfold bind, emit, ret. intros H; injection H as _ <-. eauto.
  - intros H; injection H as _ <-. eauto.
  - discriminate.
Qed.


Lemma fetchSitemapUrls_reject (fuel : nat) (url m : string) (t : list event) :
  net_fetch E url = FetchReject m ->
  fetchSitemapUrls E (S fuel) url t = Some (t ++ failed_node url (ENet m), inr []).
Proof. intros H. run_node. Qed.

Lemma fetchSitemapUrls_http (fuel : nat) (url st : string) (b : string + string)
    (t : list event) :
  net_fetch E url = Response false st b ->
  fetchSitemapUrls E (S fuel) url t = Some (t ++ failed_node url (EHttp st), inr []).
Proof. intros H. run_node. Qed.

Lemma noUrlset_eval (u : jsval) (t : list event) :
  noUrlset u t = Some (t, inr (negb (truthy u && truthy (field u "url")))).
Proof.
  destruct u; unfold noUrlset, get, bind, ret; cbn; try reflexivity;
    repeat match goal with |- context [if ?c then _ else _] => destruct c end;
    rewrite ?andb_false_r; reflexivity.
Qed.

Lemma hasSitemaps_eval (si : jsval) (t : list event) :
  hasSitemaps si t = Some (t, inr (truthy si && truthy (field si "sitemap"))).
Proof.
  destruct si; unfold hasSitemaps, get, bind, ret; cbn; try reflexivity;
    repeat match goal with |- context [if ?c then _ else _] => destruct c end;
    rewrite ?andb_false_r; reflexivity.
Qed.

Lemma seq_concat_no_throw (cs : list (M (list string))) :
  Forall (fun c => forall t t' r, c t = Some (t', r) -> exists l, r = inr l) cs ->
  forall t t' r, seq_concat cs t = Some (t', r) -> exists l, r = inr l.
Proof.
  induction 1 as [| c cs Hc _ IH]; intros t t' r; simpl; unfold bind, ret.
  - intros H; injection H as _ <-; eauto.
  - destruct (c t) as [[t1 r1] |] eqn:E1; [| discriminate].
    destruct (Hc _ _ _ E1) as [a ->].
    destruct (seq_concat cs t1) as [[t2 r2] |] eqn:E2; [| discriminate].
    destruct (IH _ _ _ E2) as [b ->].
    intros H; injection H as _ <-; eauto.
Qed.

Lemma as_array_forms_truthy (v : jsval) (locs : list string) :
  Forall2 loc_form (as_array v) locs -> truthy v = true.
Proof.
  destruct v; cbn [as_array truthy]; try reflexivity; intros H;
    inversion H as [| x l0 xs ls Hf]; subst;
    destruct Hf as [l1 Hl | gs l1 Hl]; discriminate.
Qed.

Lemma index_sitemap (fuel : nat) (url st body : string)
    (fs gs : list (string * jsval)) (es : list jsval) (locs : list string)
    (t : list event) :
  net_fetch E url = Response true st (inr body) ->
  parse_xml E body = inr (JObj fs) ->
  field (JObj fs) "urlset" = JUndef ->
  field (JObj fs) "sitemapindex" = JObj gs ->
  as_array (field (JObj gs) "sitemap") = es ->
  Forall2 loc_form es locs ->
  fetchSitemapUrls E (S fuel) url t
    = (emit (Log Out (MFetchingSitemap url)) ;;; emit (HttpGet url) ;;;
       seq_concat (map (fetchSitemapUrls E fuel) locs)) t.
Proof.
  intros Hf Hp Hu Hs Ha Hl.
  cbn [fetchSitemapUrls]. unfold catch, bind at 1 2 3 4.
  unfold emit at 1 2. rewrite Hf. cbn [negb].
  unfold of_sum, bind at 1, ret at 1. rewrite Hp.
  unfold get at 1, bind at 1, ret at 1. rewrite Hu.
  unfold ret at 1. rewrite noUrlset_eval. cbn [truthy andb negb].
  unfold bind at 1 2, get at 1. rewrite Hs. unfold ret at 1.
  rewrite hasSitemaps_eval. rewrite (as_array_forms_truthy (field (JObj gs) "sitemap") locs) by (rewrite Ha; exact Hl).
  cbn [truthy andb]. unfold bind at 1, get at 1, ret at 1. rewrite Ha.
  rewrite (sitemapLoop_concat _ es locs Hl).
  unfold bind at 1 2 3 4, emit. rewrite <- !app_assoc. cbn [app].
  destruct (seq_concat (map (fetchSitemapUrls E fuel) locs)
              (t ++ [Log Out (MFetchingSitemap url); HttpGet url]))
    as [[t2 [e | l]] |] eqn:Hc; try reflexivity.
  exfalso. apply seq_concat_no_throw in Hc as [l Hl']; [discriminate |].
  apply Forall_forall. intros c Hin. apply in_map_iff in Hin as [loc [<- _]].
  apply fetchSitemapUrls_no_throw.
Qed.

Lemma fetchSitemapUrls_body (fuel : nat) (url st m : string) (t : list event) :
  net_fetch E url = Response true st (inl m) ->
  fetchSitemapUrls E (S fuel) url t = Some (t ++ failed_node url (EBody m), inr []).
Proof. intros H. run_node. Qed.

Lemma fetchSitemapUrls_parse (fuel : nat) (url st body m : string) (t : list event) :
  net_fetch E url = Response true st (inr body) ->
  parse_xml E body = inl m ->
  fetchSitemapUrls E (S fuel) url t = Some (t ++ failed_node url (EParse m), inr []).
Proof. intros H1 H2. run_node. Qed.

Lemma truthy_field_obj (v : jsval) (k : string) :
  truthy (field v k) = true -> exists fs, v = JObj fs.
Proof. destruct v; cbn; try discriminate; eauto. Qed.

Lemma fetchSitemapUrls_invalid (fuel : nat) (url st body : string)
    (fs : list (string * jsval)) (t : list event) :
  net_fetch E url = Response true st (inr body) ->
  parse_xml E body = inr (JObj fs) ->
  truthy (field (JObj fs) "urlset")
    && truthy (field (field (JObj fs) "urlset") "url") = false ->
  truthy (field (JObj fs) "sitemapindex")
    && truthy (field (field (JObj fs) "sitemapindex") "sitemap") = false ->
  fetchSitemapUrls E (S fuel) url t
    = Some (t ++ failed_node url EInvalidFormat, inr []).
Proof.
  intros Hf Hp Hu Hs.
  cbn [fetchSitemapUrls]. unfold catch, bind at 1 2 3 4.
  unfold emit at 1 2. rewrite Hf. cbn [negb].
  unfold of_sum, bind at 1, ret at 1. rewrite Hp.
  unfold get at 1, bind at 1, ret at 1.
  unfold ret at 1. rewrite noUrlset_eval, Hu. cbn [negb].
  unfold bind at 1 2, get at 1, ret at 1.
  rewrite hasSitemaps_eval, Hs.
  unfold throw, emit, bind, ret. rewrite <- !app_assoc. reflexivity.
Qed.

Lemma map_M_loc_of (es : list jsval) (locs : list string) :
  Forall2 loc_form es locs ->
  forall t, map_M loc_of es t = Some (t, inr (map Some locs)).
Proof.
  induction 1 as [| e l es locs Hf _ IH]; intros t; [reflexivity |].
  cbn [map_M]. unfold bind at 1. rewrite (loc_of_form _ _ _ Hf).
  unfold bind, ret. rewrite IH. reflexivity.
Qed.

Lemma drop_nulls_map_Some (l : list string) : drop_nulls (map Some l) = l.
Proof. induction l as [| x l IH]; cbn; [| rewrite IH]; reflexivity. Qed.

(** A [<urlset>] whose entries all carry a location: the locations, in
    document order, and nothing is logged beyond the fetch line. *)
Lemma urlset_entries_in_order (fuel : nat) (url st body : string)
    (fs : list (string * jsval)) (locs : list string) (t : list event) :
  net_fetch E url = Response true st (inr body) ->
  parse_xml E body = inr (JObj fs) ->
  truthy (field (field (JObj fs) "urlset") "url") = true ->
  Forall2 loc_form (as_array (field (field (JObj fs) "urlset") "url")) locs ->
  fetchSitemapUrls E (S fuel) url t
    = Some (t ++ [Log Out (MFetchingSitemap url); HttpGet url], inr locs).
Proof.
  intros Hf Hp Hu Hl.
  destruct (truthy_field_obj _ _ Hu) as [us Hus]. rewrite Hus in Hu, Hl.
  cbn [fetchSitemapUrls]. unfold catch, bind at 1 2 3 4.
  unfold emit at 1 2. rewrite Hf. cbn [negb].
  unfold of_sum, bind at 1, ret at 1. rewrite Hp.
  unfold get at 1, bind at 1, ret at 1. rewrite Hus.
  unfold ret at 1. rewrite noUrlset_eval, Hu. cbn [truthy andb negb].
  unfold bind at 1 2, get at 1, ret at 1.
  rewrite (map_M_loc_of _ _ Hl). unfold ret. rewrite drop_nulls_map_Some.
  rewrite <- app_assoc. reflexivity.
Qed.

End Resolver.

(** ** Properties of the page pipeline *)

Section Pipeline.

Context (E : env).

Lemma processPage_skip (p : string) (e : error) (t : list event) :
  br_launch E = None -> br_newPage E = None ->
  nav_failure (br_goto E p) = Some e ->
  processPage E p t
    = Some (t ++ [BrowserLaunched; PageOpened; Goto p; Log Err (MPageError p e);
                  BrowserClosed; Log Warn (MSkipping p)], inr tt).
Proof.
  intros Hl Hn Hg. unfold processPage, fetchPageHtml. rewrite Hl, Hn.
  unfold bind, emit, finally, catch, goto, ret, throw.
  destruct (br_goto E p); cbn in Hg; [discriminate | |]; injection Hg as <-;
    cbn; rewrite <- !app_assoc; reflexivity.
Qed.

(** With a page session open, the browser is closed last, whatever
    [page.goto] and [page.content()] do. *)
Lemma fetchPageHtml_closes (p : string) (t : list event) :
  br_launch E = None -> br_newPage E = None ->
  exists t' r, fetchPageHtml E p t = Some (t' ++ [BrowserClosed], r).
Proof.
  intros Hl Hn. unfold fetchPageHtml. rewrite Hl, Hn.
  unfold bind, emit, finally, catch, goto, ret, throw, of_sum.
  destruct (br_goto E p); [destruct (br_content E p) | |]; cbn; eauto.
Qed.

(** Each discovered URL reaches the pipeline as its second character. *)
Lemma loopBody_second_char (total : nat) (c d : ascii) (s : string) (t : list event) :
  loopBody E total (String c (String d s)) t
    = (emit (Log Out (MProcessing (Some (String d EmptyString))
                                  (String c EmptyString ++ "1") total)) ;;;
       processPage E (String d EmptyString)) t.
Proof. reflexivity. Qed.

End Pipeline.

(** ** Properties of the sanitizer *)

Module SanitizeFacts.
Import Sanitize.

Lemma sanitize_shape (url : string) :
  sanitizeUrlToFileName url = "default_page_name"
  \/ exists x, x <> "" /\ sanitizeUrlToFileName url = (x ++ ".md")%string.
Proof.
  unfold sanitizeUrlToFileName.
  match goal with |- context [if String.eqb ?f "" then _ else _] =>
    destruct (String.eqb_spec f "") as [_ | Hne] end; [left; reflexivity |].
  right. eexists. split; [exact Hne | reflexivity].
Qed.

Definition no_dot (a : string) : bool :=
  forallb (fun c => negb (Ascii.eqb c dot)) (list_ascii_of_string a).

Lemma replace_first_dot_app (a b : string) :
  no_dot a = true ->
  replace_first_dot (a ++ String dot b)%string = (a ++ String underscore b)%string.
Proof.
  induction a as [| c a IH]; intros H; [reflexivity |].
  cbn in H |- *. apply andb_prop in H as [Hc Ha].
  destruct (Ascii.eqb c dot); [discriminate |]. rewrite IH by exact Ha. reflexivity.
Qed.

End SanitizeFacts.

(** ** The claims *)

(** C1 (code bug).  [for (const [index, pageUrl] of urls)] destructures
    each URL string, so the page pipeline receives the URL's second
    character.  On a sitemap index whose first child lists three pages and
    whose second child answers 404, the resolver finds the three URLs, yet
    the pipeline navigates to "t" three times and writes no file. *)
Theorem main_passes_second_character :
  option_map snd (fetchSitemapUrls Scenario.env_index 10 Scenario.index_url [])
    = Some (inr ["https://ex.com/p1"; "https://ex.com/p2"; "https://ex.com/p3"])
  /\ option_map (fun '(t, r) => (gotos t, written_paths t, r))
       (main Scenario.env_index 10 [Scenario.index_url] [])
     = Some (["t"; "t"; "t"], [], inr tt).
Proof. split; vm_compute; reflexivity. Qed.

(** C2 (code bug).  When every character is stripped (the empty string,
    or a bare scheme), the sanitizer returns "default_page_name" with no
    ".md" extension. *)
Theorem sanitize_default_has_no_extension :
  Sanitize.sanitizeUrlToFileName "" = "default_page_name"
  /\ Sanitize.sanitizeUrlToFileName "https://" = "default_page_name".
Proof. split; reflexivity. Qed.

(** C3 (counterexample).  The example URL is not mapped to
    "examplecom_docs_page-one.md". *)
Lemma sanitize_example_not_dot_deleted :
  Sanitize.sanitizeUrlToFileName "https://example.com/docs/page-one"
    <> "examplecom_docs_page-one.md".
Proof. vm_compute. discriminate. Qed.

(** C3 (amended).  The third rule replaces the first '.' by '_': for a
    prefix [a] without a dot, [a ++ "." ++ b] becomes [a ++ "_" ++ b]; the
    example URL becomes "example_com_docs_page-one.md". *)
Theorem sanitize_first_dot_to_underscore :
  (forall a b, SanitizeFacts.no_dot a = true ->
     Sanitize.replace_first_dot (a ++ String Sanitize.dot b)%string
       = (a ++ String Sanitize.underscore b)%string)
  /\ Sanitize.sanitizeUrlToFileName "https://example.com/docs/page-one"
     = "example_com_docs_page-one.md".
Proof.
  split; [exact SanitizeFacts.replace_first_dot_app | reflexivity].
Qed.

(** C4.  A sitemap-index document (no urlset root, a sitemapindex root
    whose entries, one or an array, all carry a location as a bare string
    or under '#text') resolves, after its fetch line, to the children
    resolved one after the other in entry order with their URL lists
    concatenated; and no child ever ends in an error, so a failing child
    contributes its own (empty) list and its siblings are unaffected. *)
Theorem index_resolves_children (E : env) (fuel : nat) (url st body : string)
    (fs gs : list (string * jsval)) (es : list jsval) (locs : list string)
    (t : list event) :
  net_fetch E url = Response true st (inr body) ->
  parse_xml E body = inr (JObj fs) ->
  field (JObj fs) "urlset" = JUndef ->
  field (JObj fs) "sitemapindex" = JObj gs ->
  as_array (field (JObj gs) "sitemap") = es ->
  Forall2 loc_form es locs ->
  fetchSitemapUrls E (S fuel) url t
    = (emit (Log Out (MFetchingSitemap url)) ;;; emit (HttpGet url) ;;;
       seq_concat (map (fetchSitemapUrls E fuel) locs)) t
  /\ (forall child t0 t1 r, In child locs ->
        fetchSitemapUrls E fuel child t0 = Some (t1, r) -> exists l, r = inr l).
Proof.
  intros Hf Hp Hu Hs Ha Hl. split.
  - exact (index_sitemap E fuel url st body fs gs es locs t Hf Hp Hu Hs Ha Hl).
  - intros child t0 t1 r _. apply fetchSitemapUrls_no_throw.
Qed.

Lemma index_resolves_children_witness :
  fetchSitemapUrls Scenario.env_index 3 Scenario.index_url []
    = (emit (Log Out (MFetchingSitemap Scenario.index_url)) ;;;
       emit (HttpGet Scenario.index_url) ;;;
       seq_concat (map (fetchSitemapUrls Scenario.env_index 2)
                       [Scenario.child_a; Scenario.child_b])) [].
Proof.
  refine (proj1 (index_resolves_children Scenario.env_index 2 Scenario.index_url
                   "OK" "index" _ _ _ _ [] eq_refl eq_refl eq_refl eq_refl eq_refl _)).
  constructor; [apply loc_bare; [reflexivity | discriminate] |].
  constructor; [eapply loc_text; reflexivity |].
  constructor.
Defined.

(** C5 (code bug).  An empty [<url/>] entry (parsed as [null]) is not
    dropped: [u.loc] throws a TypeError inside [urls.map], the catch logs
    it, and the whole urlset, including its valid first entry, yields no
    URL.  (Entries that all carry a location are returned in order:
    [urlset_entries_in_order].) *)
Theorem null_url_entry_loses_urlset :
  fetchSitemapUrls Scenario.env_null_entry 1 "https://ex.com/sitemap.xml" []
    = Some (failed_node "https://ex.com/sitemap.xml" ETypeError, inr []).
Proof. vm_compute. reflexivity. Qed.

(** C6.  The resolver never ends in an error; a rejected fetch, a
    non-success HTTP status, an unreadable body, an XML parse failure and a
    document that is neither a urlset nor a sitemap index each log the
    error and yield the empty list. *)
Theorem resolver_never_raises (E : env) :
  (forall fuel url t t' r,
     fetchSitemapUrls E fuel url t = Some (t', r) -> exists l, r = inr l)
  /\ (forall fuel url m t, net_fetch E url = FetchReject m ->
        fetchSitemapUrls E (S fuel) url t = Some (t ++ failed_node url (ENet m), inr []))
  /\ (forall fuel url st b t, net_fetch E url = Response false st b ->
        fetchSitemapUrls E (S fuel) url t = Some (t ++ failed_node url (EHttp st), inr []))
  /\ (forall fuel url st m t, net_fetch E url = Response true st (inl m) ->
        fetchSitemapUrls E (S fuel) url t = Some (t ++ failed_node url (EBody m), inr []))
  /\ (forall fuel url st body m t, net_fetch E url = Response true st (inr body) ->
        parse_xml E body = inl m ->
        fetchSitemapUrls E (S fuel) url t = Some (t ++ failed_node url (EParse m), inr []))
  /\ (forall fuel url st body fs t, net_fetch E url = Response true st (inr body) ->
        parse_xml E body = inr (JObj fs) ->
        truthy (field (JObj fs) "urlset")
          && truthy (field (field (JObj fs) "urlset") "url") = false ->
        truthy (field (JObj fs) "sitemapindex")
          && truthy (field (field (JObj fs) "sitemapindex") "sitemap") = false ->
        fetchSitemapUrls E (S fuel) url t
          = Some (t ++ failed_node url EInvalidFormat, inr [])).
Proof.
  split; [apply fetchSitemapUrls_no_throw |].
  split; [apply fetchSitemapUrls_reject |].
  split; [apply fetchSitemapUrls_http |].
  split; [apply fetchSitemapUrls_body |].
  split; [apply fetchSitemapUrls_parse |].
  apply fetchSitemapUrls_invalid.
Qed.

(** C7 (counterexample).  With two arguments the program neither exits
    nor stays off the network: it fetches the first argument. *)
Lemma main_two_args_proceeds :
  option_map (fun '(t, _) => (has_exit t, has_http t))
    (main Scenario.env_index 10 [Scenario.index_url; "--verbose"] [])
  = Some (false, true).
Proof. vm_compute. reflexivity. Qed.

(** C7 (amended).  With no argument the program prints the error and the
    usage line and exits with status 1, with no network event; with one
    or more arguments it runs on the first and ignores the rest. *)
Theorem main_argument_check (E : env) (fuel : nat) (t : list event) :
  main E fuel [] t = Some (t ++ [Log Err MPleaseProvide; Log Out MUsage; Exit 1], inr tt)
  /\ (forall a rest, main E fuel (a :: rest) t = main E fuel [a] t).
Proof.
  split.
  - unfold main, bind, emit. rewrite <- !app_assoc. reflexivity.
  - intros a rest. reflexivity.
Qed.

(** C8 (code bug).  [browser.newPage()] is awaited outside the
    [try]/[finally]: when it rejects after the launch, the browser is
    never closed and the error escapes [fetchPageHtml].  (Once the page is
    open, every path closes it: [fetchPageHtml_closes].) *)
Theorem newPage_failure_leaks_browser (E : env) (p m : string) (t : list event) :
  br_launch E = None -> br_newPage E = Some m ->
  fetchPageHtml E p t = Some (t ++ [BrowserLaunched], inl (ENewPage m)).
Proof.
  intros Hl Hn. unfold fetchPageHtml. rewrite Hl, Hn.
  unfold bind, emit, throw. reflexivity.
Qed.

Lemma newPage_failure_leaks_browser_witness :
  fetchPageHtml Scenario.env_no_page "https://ex.com/p1" []
    = Some ([BrowserLaunched], inl (ENewPage "Target closed")).
Proof.
  exact (newPage_failure_leaks_browser Scenario.env_no_page "https://ex.com/p1"
           "Target closed" [] eq_refl eq_refl).
Defined.

(** C9.  When the page handed to the pipeline fails to render (navigation
    error or timeout), its iteration logs and closes the browser, writes
    no file, and the loop goes on with the next URLs and then reports
    completion. *)
Theorem render_failure_skips (E : env) (u : string) (rest : list string)
    (p : string) (e : error) (t : list event) :
  snd (destructure u) = Some p ->
  br_launch E = None -> br_newPage E = None ->
  nav_failure (br_goto E p) = Some e ->
  (forall total t0,
     for_each E total (u :: rest) t0 = for_each E total rest (t0 ++ skip_events u p e total))
  /\ (forall total, written_paths (skip_events u p e total) = [])
  /\ runPages E (u :: rest) t
     = (for_each E (S (List.length rest)) rest ;;; emit (Log Out MFinished))
         (t ++ skip_events u p e (S (List.length rest))).
Proof.
  intros Hd Hl Hn Hg.
  assert (Hstep : forall total t0,
     for_each E total (u :: rest) t0 = for_each E total rest (t0 ++ skip_events u p e total)).
  { intros total t0. cbn [for_each]. unfold loopBody, skip_events.
    destruct (destructure u) as [i pu]. cbn [snd fst] in Hd |- *. subst pu.
    unfold bind, emit. rewrite (processPage_skip E p e _ Hl Hn Hg).
    rewrite <- !app_assoc. reflexivity. }
  split; [exact Hstep |]. split; [reflexivity |].
  unfold runPages, bind at 1. rewrite Hstep. reflexivity.
Qed.

Lemma render_failure_skips_witness :
  runPages Scenario.env_index ["https://ex.com/p1"; "https://ex.com/p2"] []
    = (for_each Scenario.env_index 2 ["https://ex.com/p2"] ;;;
       emit (Log Out MFinished))
        (skip_events "https://ex.com/p1" "t" (ENav "Cannot navigate to invalid URL") 2).
Proof.
  exact (proj2 (proj2 (render_failure_skips Scenario.env_index "https://ex.com/p1"
                         ["https://ex.com/p2"] "t" (ENav "Cannot navigate to invalid URL") []
                         eq_refl eq_refl eq_refl eq_refl))).
Defined.

(** C10.  A urlset root with no [url] entry, in a document with no
    sitemapindex root, takes the invalid-format path: the
    "Invalid sitemap format" error is logged and the list is empty. *)
Theorem empty_urlset_invalid (E : env) (fuel : nat) (url st body : string)
    (fs : list (string * jsval)) (t : list event) :
  net_fetch E url = Response true st (inr body) ->
  parse_xml E body = inr (JObj fs) ->
  field (field (JObj fs) "urlset") "url" = JUndef ->
  field (JObj fs) "sitemapindex" = JUndef ->
  fetchSitemapUrls E (S fuel) url t = Some (t ++ failed_node url EInvalidFormat, inr []).
Proof.
  intros Hf Hp Hu Hs. apply (fetchSitemapUrls_invalid E fuel url st body fs t Hf Hp).
  - rewrite Hu. apply andb_false_r.
  - rewrite Hs. reflexivity.
Qed.

Lemma empty_urlset_invalid_witness :
  fetchSitemapUrls Scenario.env_empty_urlset 1 "https://ex.com/sitemap.xml" []
    = Some (failed_node "https://ex.com/sitemap.xml" EInvalidFormat, inr []).
Proof.
  exact (empty_urlset_invalid Scenario.env_empty_urlset 0 "https://ex.com/sitemap.xml"
           "OK" "empty" _ [] eq_refl eq_refl eq_refl eq_refl).
Defined.

(** ** Further properties of the sanitizer *)

Module SanitizeMore.
Import Sanitize.

Lemma keep_allowed_all (s : string) : all_allowed (keep_allowed s) = true.
Proof.
  induction s as [| c s IH]; [reflexivity |]. cbn.
  destruct (allowed c) eqn:Hc; [cbn; rewrite Hc; exact IH | exact IH].
Qed.

Lemma substring0_all (n : nat) (s : string) :
  all_allowed s = true -> all_allowed (substring 0 n s) = true.
Proof.
  revert n. induction s as [| c s IH]; intros n H; destruct n; try reflexivity.
  cbn in H |- *. apply andb_prop in H as [Hc Hs]. rewrite Hc. exact (IH n Hs).
Qed.

Lemma substring0_length (n : nat) (s : string) :
  String.length (substring 0 n s) <= n.
Proof.
  revert n. induction s as [| c s IH]; intros n; destruct n; cbn; try lia.
  specialize (IH n). lia.
Qed.

Lemma substring0_length_le (n : nat) (s : string) :
  String.length (substring 0 n s) <= String.length s.
Proof.
  revert n. induction s as [| c s IH]; intros n; destruct n; cbn; try lia.
  specialize (IH n). lia.
Qed.

Lemma substring0_full (s : string) : substring 0 (String.length s) s = s.
Proof. induction s as [| c s IH]; cbn; [| rewrite IH]; reflexivity. Qed.

Lemma all_allowed_no_slash (s : string) :
  all_allowed s = true -> replace_slashes s = s.
Proof.
  induction s as [| c s IH]; intros H; [reflexivity |].
  cbn in H |- *. apply andb_prop in H as [Hc Hs]. rewrite IH by exact Hs.
  destruct (Ascii.eqb_spec c slash) as [-> | _]; [discriminate | reflexivity].
Qed.

Lemma no_dot_replace (s : string) :
  SanitizeFacts.no_dot s = true -> replace_first_dot s = s.
Proof.
  induction s as [| c s IH]; intros H; [reflexivity |].
  unfold SanitizeFacts.no_dot in H. cbn in H |- *. apply andb_prop in H as [Hc Hs].
  destruct (Ascii.eqb c dot); [discriminate |]. rewrite IH by exact Hs. reflexivity.
Qed.

Lemma keep_allowed_id (s : string) : all_allowed s = true -> keep_allowed s = s.
Proof.
  induction s as [| c s IH]; intros H; [reflexivity |].
  cbn in H |- *. apply andb_prop in H as [Hc Hs]. rewrite Hc, IH by exact Hs.
  reflexivity.
Qed.

Lemma prefix_app (p s : string) : String.prefix p s = true -> exists r, s = (p ++ r)%string.
Proof.
  revert s. induction p as [| c p IH]; intros s H; [exists s; reflexivity |].
  destruct s as [| d s]; cbn in H; [discriminate |].
  destruct (ascii_dec c d) as [-> | _]; [| discriminate].
  destruct (IH s H) as [r ->]. exists r. reflexivity.
Qed.

Lemma all_allowed_no_scheme (s : string) : all_allowed s = true -> strip_scheme s = s.
Proof.
  intros H. unfold strip_scheme.
  destruct (String.prefix "https://" s) eqn:H1.
  - apply prefix_app in H1 as [r ->]. discriminate.
  - destruct (String.prefix "http://" s) eqn:H2; [| reflexivity].
    apply prefix_app in H2 as [r ->]. discriminate.
Qed.

Lemma strip_https (r : string) : strip_scheme ("https://" ++ r) = r.
Proof.
  unfold strip_scheme. cbn -[substring].
  replace (String.length r - 0) with (String.length r) by lia.
  cbn. destruct (String.prefix "" r) eqn:Hp;
    [apply substring0_full | destruct r; discriminate].
Qed.

Lemma strip_http (r : string) : strip_scheme ("http://" ++ r) = r.
Proof.
  unfold strip_scheme. cbn -[substring].
  replace (String.length r - 0) with (String.length r) by lia.
  cbn. destruct (String.prefix "" r) eqn:Hp;
    [apply substring0_full | destruct r; discriminate].
Qed.

End SanitizeMore.

(** ** Extra properties *)

(** The sanitizer's output is the default name, or a non-empty name of at
    most 100 characters from [a-zA-Z0-9_.-] followed by ".md". *)
Theorem sanitize_output_safe (url : string) :
  Sanitize.sanitizeUrlToFileName url = "default_page_name"
  \/ exists x, Sanitize.sanitizeUrlToFileName url = (x ++ ".md")%string
       /\ x <> "" /\ String.length x <= 100 /\ all_allowed x = true.
Proof.
  unfold Sanitize.sanitizeUrlToFileName.
  set (f0 := Sanitize.keep_allowed _).
  assert (A0 : all_allowed f0 = true) by apply SanitizeMore.keep_allowed_all.
  set (f1 := if Nat.ltb 100 (String.length f0) then substring 0 100 f0 else f0).
  assert (A1 : all_allowed f1 = true /\ String.length f1 <= 100).
  { unfold f1. destruct (Nat.ltb_spec 100 (String.length f0)).
    - split; [apply SanitizeMore.substring0_all, A0 | apply SanitizeMore.substring0_length].
    - split; [exact A0 | lia]. }
  set (f2 := if Nat.ltb 1 (String.length f1) && Sanitize.ends_dot_or_underscore f1
             then substring 0 (String.length f1 - 1) f1 else f1).
  assert (A2 : all_allowed f2 = true /\ String.length f2 <= 100).
  { destruct A1 as [A1 L1]. unfold f2.
    destruct (Nat.ltb 1 (String.length f1) && Sanitize.ends_dot_or_underscore f1).
    - split; [apply SanitizeMore.substring0_all, A1 |].
      pose proof (SanitizeMore.substring0_length_le (String.length f1 - 1) f1). lia.
    - split; assumption. }
  destruct (String.eqb_spec f2 "") as [_ | Hne]; [left; reflexivity |].
  right. exists f2. destruct A2. repeat split; assumption.
Qed.

(** The sanitizer ignores whether the scheme is http or https. *)
Theorem sanitize_scheme_insensitive (r : string) :
  Sanitize.sanitizeUrlToFileName ("https://" ++ r)
  = Sanitize.sanitizeUrlToFileName ("http://" ++ r).
Proof.
  unfold Sanitize.sanitizeUrlToFileName.
  rewrite SanitizeMore.strip_https, SanitizeMore.strip_http. reflexivity.
Qed.

(** A name that is already safe (non-empty, at most 100 characters from
    [a-zA-Z0-9_-], not ending in '_') is kept and only gets ".md". *)
Theorem sanitize_keeps_safe_name (x : string) :
  all_allowed x = true -> SanitizeFacts.no_dot x = true -> x <> "" ->
  String.length x <= 100 -> Sanitize.ends_dot_or_underscore x = false ->
  Sanitize.sanitizeUrlToFileName x = (x ++ ".md")%string.
Proof.
  intros Ha Hd Hne Hl He. unfold Sanitize.sanitizeUrlToFileName.
  rewrite SanitizeMore.all_allowed_no_scheme, SanitizeMore.all_allowed_no_slash,
    SanitizeMore.no_dot_replace, SanitizeMore.keep_allowed_id by assumption.
  destruct (Nat.ltb_spec 100 (String.length x)); [lia |].
  rewrite He, andb_false_r.
  destruct (String.eqb_spec x ""); [contradiction | reflexivity].
Qed.

Lemma sanitize_keeps_safe_name_witness :
  Sanitize.sanitizeUrlToFileName "docs_page-one" = "docs_page-one.md".
Proof.
  exact (sanitize_keeps_safe_name "docs_page-one" eq_refl eq_refl
           ltac:(discriminate) ltac:(cbn; lia) eq_refl).
Defined.

Section ResolverMore.

Context (E : env).

Lemma loc_of_entry (x : jsval) (o : option string) (t : list event) :
  entry_loc x o -> loc_of x t = Some (t, inr o).
Proof.
  intros [s Hf | Hd Hl | Hd Hl Hs Ht].
  - apply loc_of_form, Hf.
  - destruct x; try discriminate; unfold loc_of, get, bind, ret; cbn [field] in *;
      rewrite Hl; reflexivity.
  - destruct x; try discriminate; unfold loc_of, get, bind, ret; cbn [field] in *;
      rewrite Hl, Hs; cbn [andb];
      destruct (assoc "loc" _); try discriminate; cbn in Ht |- *; rewrite ?Ht;
      reflexivity.
Qed.

Lemma map_M_entries (es : list jsval) (os : list (option string)) :
  Forall2 entry_loc es os -> forall t, map_M loc_of es t = Some (t, inr os).
Proof.
  induction 1 as [| e o es os He _ IH]; intros t; [reflexivity |].
  cbn [map_M]. unfold bind at 1. rewrite (loc_of_entry _ _ _ He).
  unfold bind, ret. rewrite IH. reflexivity.
Qed.

Lemma map_M_null (pre post : list jsval) (os : list (option string)) :
  Forall2 entry_loc pre os ->
  forall t, map_M loc_of (pre ++ JNull :: post) t = Some (t, inl ETypeError).
Proof.
  induction 1 as [| e o es os He _ IH]; intros t; [reflexivity |].
  cbn [map_M app]. unfold bind at 1. rewrite (loc_of_entry _ _ _ He).
  unfold bind at 1. rewrite IH. reflexivity.
Qed.

Lemma sitemapLoop_entries (f : string -> M (list string)) (es : list jsval)
    (os : list (option string)) :
  Forall2 entry_loc es os ->
  forall acc t,
    sitemapLoop f es acc t = (l <- seq_concat (map f (drop_nulls os)) ;; ret (acc ++ l)) t.
Proof.
  induction 1 as [| e o es os He _ IH]; intros acc t.
  - cbn. unfold bind, ret. rewrite app_nil_r. reflexivity.
  - cbn [sitemapLoop]. unfold bind at 1. rewrite (loc_of_entry _ _ _ He).
    destruct o as [s |]; cbn [drop_nulls map seq_concat]; [| apply IH].
    unfold bind. destruct (f s t) as [[t1 [err | n]] |]; try reflexivity.
    rewrite IH. unfold bind, ret.
    destruct (seq_concat (map f (drop_nulls os)) t1) as [[t2 [err | b]] |]; try reflexivity.
    rewrite app_assoc. reflexivity.
Qed.

Lemma sitemapLoop_null (f : string -> M (list string)) (pre post : list jsval)
    (os : list (option string)) :
  Forall2 entry_loc pre os ->
  forall acc t,
    sitemapLoop f (pre ++ JNull :: post) acc t
    = (l <- seq_concat (map f (drop_nulls os)) ;; throw ETypeError) t.
Proof.
  induction 1 as [| e o es os He _ IH]; intros acc t.
  - reflexivity.
  - cbn [sitemapLoop app]. unfold bind at 1. rewrite (loc_of_entry _ _ _ He).
    destruct o as [s |]; cbn [drop_nulls map seq_concat]; [| apply IH].
    unfold bind. destruct (f s t) as [[t1 [err | n]] |]; try reflexivity.
    rewrite IH. unfold bind, ret.
    destruct (seq_concat (map f (drop_nulls os)) t1) as [[t2 [err | b]] |]; reflexivity.
Qed.

Lemma seq_concat_children_no_throw (fuel : nat) (locs : list string) (t t' : list event)
    (e : error) :
  seq_concat (map (fetchSitemapUrls E fuel) locs) t <> Some (t', inl e).
Proof.
  intros Hc. apply seq_concat_no_throw in Hc as [l Hl']; [discriminate |].
  apply Forall_forall. intros c Hin. apply in_map_iff in Hin as [loc [<- _]].
  apply fetchSitemapUrls_no_throw.
Qed.

End ResolverMore.

Section ResolverExtra.

Context (E : env).

Ltac node_prefix Hf Hp :=
  cbn [fetchSitemapUrls]; unfold catch, bind at 1 2 3 4;
  unfold emit at 1 2; rewrite Hf; cbn [negb];
  unfold of_sum, bind at 1, ret at 1; rewrite Hp;
  unfold get at 1, bind at 1, ret at 1.





End ResolverExtra.

(** ** Extra properties of the pipeline and the run loop *)

Section PipelineExtra.

Context (E : env).


Lemma written_paths_app (t1 t2 : list event) :
  written_paths (t1 ++ t2) = written_paths t1 ++ written_paths t2.
Proof. apply flat_map_app. Qed.


(** A rejected [puppeteer.launch] is not caught: the run stops at the
    first URL, before any later URL and before the completion message. *)
Theorem launch_failure_aborts_run (u p m : string) (rest : list string) (t : list event) :
  snd (destructure u) = Some p -> br_launch E = Some m ->
  runPages E (u :: rest) t
  = Some (t ++ [Log Out (MProcessing (Some p) (index_plus_one (fst (destructure u)))
                                    (S (List.length rest)))],
          inl (ELaunch m)).
Proof.
  intros Hd Hl. unfold runPages. cbn [for_each List.length]. unfold loopBody.
  destruct (destructure u) as [i pu]. cbn [snd fst] in Hd |- *. subst pu.
  unfold processPage, fetchPageHtml. rewrite Hl.
  unfold bind, emit, throw. reflexivity.
Qed.


(** When the resolver finds no URL, main reports it and returns normally,
    with no directory created and no browser started. *)
Theorem main_no_urls (fuel : nat) (url : string) (rest : list string) (t t' : list event) :
  fetchSitemapUrls E fuel url (t ++ [Log Out (MSitemapUrl url)]) = Some (t', inr []) ->
  main E fuel (url :: rest) t = Some (t' ++ [Log Out MNoUrls], inr tt).
Proof.
  intros H. unfold main, bind at 1, emit at 1. unfold bind at 1. rewrite H.
  reflexivity.
Qed.

End PipelineExtra.

Section Divergence.

Context (E : env).

Lemma seq_concat_none (cs : list (M (list string))) (c : M (list string)) :
  In c cs -> (forall t, c t = None) ->
  Forall (fun c => forall t t' r, c t = Some (t', r) -> exists l, r = inr l) cs ->
  forall t, seq_concat cs t = None.
Proof.
  intros Hin Hc Hf. induction Hf as [| c0 cs Hc0 Hf IH]; [destruct Hin |].
  intros t. cbn [seq_concat]. unfold bind at 1.
  destruct Hin as [<- | Hin]; [rewrite Hc; reflexivity |].
  destruct (c0 t) as [[t1 r1] |] eqn:E1; [| reflexivity].
  destruct (Hc0 _ _ _ E1) as [a ->]. unfold bind. rewrite (IH Hin t1). reflexivity.
Qed.

(** A sitemap index that lists its own URL, at any position, never
    returns: the resolver keeps no set of visited sitemaps. *)
Theorem self_listed_index_diverges (url st body : string)
    (fs gs : list (string * jsval)) (es : list jsval) (locs : list string) :
  net_fetch E url = Response true st (inr body) ->
  parse_xml E body = inr (JObj fs) ->
  field (JObj fs) "urlset" = JUndef ->
  field (JObj fs) "sitemapindex" = JObj gs ->
  as_array (field (JObj gs) "sitemap") = es ->
  Forall2 loc_form es locs ->
  In url locs ->
  forall fuel t, fetchSitemapUrls E fuel url t = None.
Proof.
  intros Hf Hp Hu Hs Ha Hl Hin fuel. induction fuel as [| n IH]; intros t; [reflexivity |].
  rewrite (index_sitemap E n url st body fs gs es locs t Hf Hp Hu Hs Ha Hl).
  unfold bind at 1 2, emit.
  apply (seq_concat_none _ (fetchSitemapUrls E n url)).
  - apply in_map, Hin.
  - exact IH.
  - apply Forall_forall. intros c Hc. apply in_map_iff in Hc as [loc [<- _]].
    apply fetchSitemapUrls_no_throw.
Qed.

End Divergence.

(** ** Witnesses of the extra properties *)







Lemma launch_failure_aborts_run_witness :
  runPages Scenario.env_no_browser ["https://ex.com/p1"; "https://ex.com/p2"] []
    = Some ([Log Out (MProcessing (Some "t") "h1" 2)],
            inl (ELaunch "Failed to launch the browser process")).
Proof.
  exact (launch_failure_aborts_run Scenario.env_no_browser "https://ex.com/p1" "t"
           "Failed to launch the browser process" ["https://ex.com/p2"] [] eq_refl eq_refl).
Defined.


Lemma main_no_urls_witness :
  main Scenario.env_index 1 [Scenario.child_b] []
    = Some ([Log Out (MSitemapUrl Scenario.child_b)]
              ++ failed_node Scenario.child_b (EHttp "Not Found") ++ [Log Out MNoUrls],
            inr tt).
Proof.
  exact (main_no_urls Scenario.env_index 1 Scenario.child_b [] []
           ([Log Out (MSitemapUrl Scenario.child_b)]
              ++ failed_node Scenario.child_b (EHttp "Not Found"))
           eq_refl).
Defined.

Lemma self_listed_index_diverges_witness :
  fetchSitemapUrls Scenario.env_self_index 50 Scenario.index_url [] = None.
Proof.
  exact (self_listed_index_diverges Scenario.env_self_index Scenario.index_url "OK" "index"
           _ _ _ [Scenario.child_a; Scenario.index_url] eq_refl eq_refl eq_refl eq_refl eq_refl
           ltac:(entries_tac)
           ltac:(right; left; reflexivity) 50 []).
Defined.

Lemma fetchPageHtml_closes_witness :
  exists t' r, fetchPageHtml Scenario.env_index "t" [] = Some (t' ++ [BrowserClosed], r).
Proof. exact (fetchPageHtml_closes Scenario.env_index "t" [] eq_refl eq_refl). Defined.
